(** * Lightbulb contexts: [lightbulb/context/base.py]

    A shallow embedding of [OptionsProxy], [ResponseProxy], [Context] and
    [ApplicationContext].  Python objects become records of their slots,
    keyword arguments become finite maps from names to values, and the
    hikari collaborators (the command interaction, a fetcher, a command's
    [invoke]) become calls answered by a platform function and recorded, in
    order, in a log.  Coroutines are run to completion: an [await] of a
    platform call is one step that either returns or raises. *)

From stdpp Require Import gmap strings list fin_maps.
From Stdlib Require Import ZArith.

Local Open Scope string_scope.
Local Open Scope list_scope.

(** ** Python values that travel as positional and keyword arguments *)

(** [hikari.ResponseType]: the two members the source names, and the two
    update types of the same enumeration. *)
Inductive ResponseType : Type :=
| MESSAGE_CREATE
| DEFERRED_MESSAGE_CREATE
| DEFERRED_MESSAGE_UPDATE
| MESSAGE_UPDATE.

Inductive Value : Type :=
| VNone
| VBool (b : bool)
| VInt (z : Z)
| VStr (s : string)
| VResponseType (rt : ResponseType)
| VObject (addr : N).

(** [isinstance(v, hikari.ResponseType)] *)
Definition isinstance_ResponseType (v : Value) : bool :=
  match v with
  | VResponseType _ => true
  | _ => false
  end.

(** [d.pop(key, None)] used as a statement: the key is dropped when present. *)
Definition pop (key : string) (d : gmap string Value) : gmap string Value :=
  delete key d.

(** [d.setdefault(key, v)] used as a statement. *)
Definition setdefault (key : string) (v : Value) (d : gmap string Value)
  : gmap string Value :=
  match d !! key with
  | Some _ => d
  | None => <[key := v]> d
  end.

(** ** Exceptions and results *)

Inductive Exception : Type :=
| ValueError (msg : string)
| TypeError (msg : string)
| AssertionError
| IndexError
| HikariError (code : N).

Inductive Result (A : Type) : Type :=
| Ok (a : A)
| Raise (e : Exception).
Arguments Ok {A} a.
Arguments Raise {A} e.

(** ** hikari objects *)

Record Message : Type := mkMessage { message_id : N }.

Record CommandInteraction : Type := mkCommandInteraction {
  interaction_id : N;
  channel_id : N;
  guild_id : option N;
  command_id : N
}.

(** What [event.interaction] may hold: the constructor of
    [ApplicationContext] asserts the first case. *)
Inductive PartialInteraction : Type :=
| IsCommandInteraction (i : CommandInteraction)
| OtherInteraction (id : N).

Record InteractionCreateEvent : Type := mkEvent { interaction : PartialInteraction }.

Record BotApp : Type := mkBotApp { application_id : N }.

(** [lightbulb.commands]: the members of a command this file reads. *)
Record Command : Type := mkCommand { name : string; auto_defer : bool }.

(** A zero-argument asynchronous callable producing a message: the bound
    method [interaction.fetch_initial_response], or any other one. *)
Inductive Fetcher : Type :=
| fetch_initial_response (i : CommandInteraction)
| other_fetcher (addr : N).

(** ** The objects of this module, as records of their slots *)

Record OptionsProxy : Type := mkOptionsProxy {
  _options : gmap string Value
}.

Record ResponseProxy : Type := mkResponseProxy {
  _message : option Message;
  _fetcher : option Fetcher
}.

(** The slots of the abstract base class. *)
Record Context : Type := mkContext {
  _app : BotApp;
  _responses : list ResponseProxy
}.

Record ApplicationContext : Type := mkApplicationContext {
  super : Context;
  _event : InteractionCreateEvent;
  _interaction : CommandInteraction;
  _command : Command
}.




(** ** The platform and the event loop *)

(** The calls that leave this layer. *)
Inductive Call : Type :=
| create_initial_response (i : CommandInteraction) (kwargs : gmap string Value)
| execute (i : CommandInteraction) (args : list Value) (kwargs : gmap string Value)
| call_fetcher (f : Fetcher)
| command_invoke (cmd : Command) (ctx : Context).

(** How an awaited call ends: it raises, or it returns a message or [None]. *)
Inductive Outcome : Type :=
| Raises (e : Exception)
| Returns (m : option Message).

(** A coroutine object made by calling [self.respond] with positional and
    keyword arguments: created, not yet run. *)
Inductive Coroutine : Type :=
| respond_coroutine (args : list Value) (kwargs : gmap string Value).

(** The world outside: how the platform answers a call given the calls made
    so far, the log of those calls, and the tasks the event loop has been
    handed by [asyncio.create_task] and has not started. *)
Record World : Type := mkWorld {
  platform : list Call -> Call -> Outcome;
  calls : list Call;
  scheduled : list Coroutine
}.

(** ** A state and exception monad *)

Definition M (S A : Type) : Type := S -> Result A * S.

Definition ret {S A : Type} (a : A) : M S A := fun s => (Ok a, s).

Definition raise {S A : Type} (e : Exception) : M S A := fun s => (Raise e, s).

Definition bind {S A B : Type} (m : M S A) (k : A -> M S B) : M S B :=
  fun s =>
    match m s with
    | (Ok a, s') => k a s'
    | (Raise e, s') => (Raise e, s')
    end.

Notation "'do' x <- m ; k" := (bind m (fun x => k))
  (at level 10, x name, m at level 100, k at level 200).
Notation "'do_' m ; k" := (bind m (fun _ => k))
  (at level 10, m at level 100, k at level 200).

(** A pure computation that may raise. *)
Definition lift_result {S A : Type} (r : Result A) : M S A := fun s => (r, s).

Definition log_call (c : Call) (w : World) : World :=
  {| platform := platform w; calls := calls w ++ [c]; scheduled := scheduled w |}.

(** [await <call>]: the call is made, and the platform's answer to it is the
    result. *)
Definition await (c : Call) : M World (option Message) :=
  fun w =>
    match platform w (calls w) c with
    | Raises e => (Raise e, log_call c w)
    | Returns m => (Ok m, log_call c w)
    end.

(** [asyncio.create_task(coro)], inside the running event loop: the
    coroutine is queued and the caller goes on. *)
Definition create_task (coro : Coroutine) : M World unit :=
  fun w =>
    (Ok tt, {| platform := platform w; calls := calls w;
               scheduled := scheduled w ++ [coro] |}).

(** ** [OptionsProxy] *)

(** What evaluating [proxy.item] can produce. *)
Inductive Attribute : Type :=
| Val (v : Value)
| Mapping (d : gmap string Value)
| ClassAttr (attr : string).

Module OptionsProxy.

Definition __init__ (options : gmap string Value) : OptionsProxy :=
  {| _options := options |}.

(** [self._options.get(item)] *)
Definition __getattr__ (self : OptionsProxy) (item : string) : Value :=
  default VNone (_options self !! item).

(** The names the class body defines. *)
Definition class_body : list string := [ "__init__"; "__getattr__" ].

(** The expression [proxy.item].  Python calls [__getattr__] only when the
    ordinary lookup fails.  That lookup finds the instance attribute
    [_options], set by [__init__]; the two methods of the class body; and
    the names the interpreter itself puts on the class or finds on [object]
    ([__class__], [__dict__], [__doc__], ...).  The last set belongs to the
    interpreter and differs between its versions, so it is the parameter
    [runtime]: [runtime item] says whether the running interpreter finds
    [item] there. *)
Definition getattr (runtime : string -> bool) (self : OptionsProxy) (item : string)
  : Attribute :=
  if decide (item = "_options") then Mapping (_options self)
  else if decide (item ∈ class_body) then ClassAttr item
  else if runtime item then ClassAttr item
  else Val (__getattr__ self item).

(** One interpreter, for the examples: the names CPython 3.11 has on a class
    without [__slots__] and on [object]. *)
Definition cpython_3_11 (item : string) : bool :=
  bool_decide
    (item ∈ [ "__class__"; "__delattr__"; "__dict__"; "__dir__"; "__doc__";
              "__eq__"; "__format__"; "__ge__"; "__getattribute__";
              "__getstate__"; "__gt__"; "__hash__"; "__init_subclass__";
              "__le__"; "__lt__"; "__module__"; "__ne__"; "__new__";
              "__reduce__"; "__reduce_ex__"; "__repr__"; "__setattr__";
              "__sizeof__"; "__str__"; "__subclasshook__"; "__weakref__" ]).

End OptionsProxy.

(** ** [ResponseProxy] *)

Module ResponseProxy.

Definition __init__ (message : option Message) (fetcher : option Fetcher)
  : Result ResponseProxy :=
  match message, fetcher with
  | None, None =>
      Raise (ValueError "One of message or fetcher arguments cannot be None")
  | _, _ => Ok {| _message := message; _fetcher := fetcher |}
  end.

(** No slot of [self] is assigned: the proxy is the same before and after. *)
Definition message (self : ResponseProxy) : M World (option Message) :=
  match _message self with
  | Some m => ret (Some m)
  | None =>
      match _fetcher self with
      | None => raise AssertionError
      | Some fetcher =>
          do msg <- await (call_fetcher fetcher);
          ret msg
      end
  end.

End ResponseProxy.

(** ** [Context] *)

Module Context.

Definition __init__ (app : BotApp) : Context :=
  {| _app := app; _responses := [] |}.

Definition responses (self : Context) : list ResponseProxy := _responses self.

(** [self._responses[-1] if self._responses else None] *)
Definition previous_response (self : Context) : option ResponseProxy :=
  match _responses self with
  | [] => None
  | _ :: _ => last (_responses self)
  end.

Definition app (self : Context) : BotApp := _app self.


End Context.

(** ** [ApplicationContext] *)

Module ApplicationContext.

(** The state a coroutine of the context runs in: the context object and the
    world. *)
Definition get_self : M (ApplicationContext * World) ApplicationContext :=
  fun s => (Ok (fst s), s).

Definition in_world {A : Type} (m : M World A) : M (ApplicationContext * World) A :=
  fun s =>
    let (r, w') := m (snd s) in (r, (fst s, w')).

(** The context once [p] has been appended to its history; the other slots
    are as they were. *)
Definition with_response (self : ApplicationContext) (p : ResponseProxy)
  : ApplicationContext :=
  {| super := {| _app := _app (super self);
                 _responses := _responses (super self) ++ [p] |};
     _event := _event self;
     _interaction := _interaction self;
     _command := _command self |}.

(** [self._responses.append(p)] *)
Definition append_response (p : ResponseProxy) : M (ApplicationContext * World) unit :=
  fun s => (Ok tt, (with_response (fst s) p, snd s)).

(** [self._responses[-1]] *)
Definition last_response : M (ApplicationContext * World) ResponseProxy :=
  fun s =>
    match last (_responses (super (fst s))) with
    | Some p => (Ok p, s)
    | None => (Raise IndexError, s)
    end.

Definition respond (args : list Value) (kwargs : gmap string Value)
  : M (ApplicationContext * World) ResponseProxy :=
  let kwargs := pop "reply" kwargs in
  let kwargs := pop "mentions_reply" kwargs in
  let kwargs := pop "nonce" kwargs in
  do self <- get_self;
  match _responses (super self) with
  | _ :: _ =>
      let kwargs := pop "response_type" kwargs in
      let args :=
        match args with
        | a0 :: rest => if isinstance_ResponseType a0 then rest else args
        | [] => args
        end in
      do m <- in_world (await (execute (_interaction self) args kwargs));
      do p <- lift_result (ResponseProxy.__init__ m None);
      do_ append_response p;
      last_response
  | [] =>
      let kwargs :=
        match args with
        | [] => kwargs
        | a0 :: rest =>
            if negb (isinstance_ResponseType a0) then
              let kwargs := <["content" := a0]> kwargs in
              setdefault "response_type" (VResponseType MESSAGE_CREATE) kwargs
            else
              let kwargs := <["response_type" := a0]> kwargs in
              match rest with
              | a1 :: _ => setdefault "content" a1 kwargs
              | [] => kwargs
              end
        end in
      let kwargs := pop "attachment" kwargs in
      let kwargs := pop "attachments" kwargs in
      do_ in_world (await (create_initial_response (_interaction self) kwargs));
      do p <- lift_result
                (ResponseProxy.__init__ None
                   (Some (fetch_initial_response (_interaction self))));
      do_ append_response p;
      last_response
  end.

(** Running a task the event loop was handed. *)
Definition run_task (coro : Coroutine) : M (ApplicationContext * World) ResponseProxy :=
  match coro with
  | respond_coroutine args kwargs => respond args kwargs
  end.

Definition __init__ (app : BotApp) (event : InteractionCreateEvent) (command : Command)
  : M World ApplicationContext :=
  let base := Context.__init__ app in
  match interaction event with
  | OtherInteraction _ => raise AssertionError
  | IsCommandInteraction i =>
      let self := {| super := base; _event := event; _interaction := i;
                     _command := command |} in
      if auto_defer command then
        do_ create_task
              (respond_coroutine [VResponseType DEFERRED_MESSAGE_CREATE] ∅);
        ret self
      else ret self
  end.

End ApplicationContext.

(** ** Calling [message()] several times, and counting what reached a fetcher *)

#[export] Instance CommandInteraction_eq_dec : EqDecision CommandInteraction.
Proof. solve_decision. Defined.

#[export] Instance Fetcher_eq_dec : EqDecision Fetcher.
Proof. solve_decision. Defined.

(** [n] calls of [self.message()] in a row, each awaited before the next; the
    results in order. *)
Fixpoint message_times (n : nat) (self : ResponseProxy)
  : M World (list (option Message)) :=
  match n with
  | O => ret []
  | S n' =>
      do m <- ResponseProxy.message self;
      do ms <- message_times n' self;
      ret (m :: ms)
  end.

(** How many times the fetcher [f] was invoked, according to a log. *)
Fixpoint fetch_count (f : Fetcher) (log : list Call) : nat :=
  match log with
  | [] => 0
  | call_fetcher g :: log' =>
      if decide (g = f) then S (fetch_count f log') else fetch_count f log'
  | _ :: log' => fetch_count f log'
  end.

(** The result of an awaited call, from the platform's answer. *)
Definition outcome_result (o : Outcome) : Result (option Message) :=
  match o with
  | Raises e => Raise e
  | Returns m => Ok m
  end.

(** ** Concrete worlds for the examples *)

(** A platform that accepts everything: an initial response and a command
    return [None]; [execute] and a fetcher return a message numbered by the
    number of calls made before. *)
Definition numbering_platform (log : list Call) (c : Call) : Outcome :=
  match c with
  | create_initial_response _ _ => Returns None
  | execute _ _ _ => Returns (Some (mkMessage (N.of_nat (length log))))
  | call_fetcher _ => Returns (Some (mkMessage (N.of_nat (length log))))
  | command_invoke _ _ => Returns None
  end.

(** A platform that refuses every call. *)
Definition forbidden_platform (log : list Call) (c : Call) : Outcome :=
  Raises (HikariError 403).

Definition fresh_world (pf : list Call -> Call -> Outcome) : World :=
  {| platform := pf; calls := []; scheduled := [] |}.

Definition interaction0 : CommandInteraction :=
  {| interaction_id := 1; channel_id := 10; guild_id := Some 20%N; command_id := 30 |}.

Definition event0 : InteractionCreateEvent :=
  {| interaction := IsCommandInteraction interaction0 |}.

Definition ping : Command := {| name := "ping"; auto_defer := false |}.

Definition slow : Command := {| name := "slow"; auto_defer := true |}.

Definition app0 : BotApp := {| application_id := 7 |}.

(** A context that has not responded yet. *)
Definition context0 : ApplicationContext :=
  {| super := Context.__init__ app0; _event := event0;
     _interaction := interaction0; _command := ping |}.

Definition initial_proxy : ResponseProxy :=
  {| _message := None; _fetcher := Some (fetch_initial_response interaction0) |}.

(** The same context after its initial response. *)
Definition context1 : ApplicationContext :=
  {| super := {| _app := app0; _responses := [initial_proxy] |}; _event := event0;
     _interaction := interaction0; _command := ping |}.

(** ** The read-only properties of [ApplicationContext] *)

Module ApplicationContextProperties.

Definition event (self : ApplicationContext) : InteractionCreateEvent := _event self.

Definition interaction (self : ApplicationContext) : CommandInteraction :=
  _interaction self.

Definition channel_id (self : ApplicationContext) : N :=
  channel_id (_interaction self).

Definition guild_id (self : ApplicationContext) : option N :=
  guild_id (_interaction self).

Definition attachments (self : ApplicationContext) : list Value := [].

Definition invoked_with (self : ApplicationContext) : string := name (_command self).

Definition command_id (self : ApplicationContext) : N :=
  command_id (_interaction self).

End ApplicationContextProperties.

(** ** A command body that responds several times *)

(** Calls of [respond], each with its positional and keyword arguments, made
    one after the other on one context by a caller that catches what a call
    raises and goes on: the outcome of every call, in order, and the final
    state. *)
Fixpoint respond_all (reqs : list (list Value * gmap string Value))
    (s : ApplicationContext * World)
  : list (Result ResponseProxy) * (ApplicationContext * World) :=
  match reqs with
  | [] => ([], s)
  | (args, kwargs) :: reqs' =>
      let (r, s1) := ApplicationContext.respond args kwargs s in
      let (rs, s2) := respond_all reqs' s1 in
      (r :: rs, s2)
  end.

(** The values of the calls that returned, in order. *)
Fixpoint returned {A : Type} (rs : list (Result A)) : list A :=
  match rs with
  | [] => []
  | Ok a :: rs' => a :: returned rs'
  | Raise _ :: rs' => returned rs'
  end.

(** How many calls were made up to and including the first that returned. *)
Fixpoint calls_until_return {A : Type} (rs : list (Result A)) : nat :=
  match rs with
  | [] => 0
  | Ok _ :: _ => 1
  | Raise _ :: rs' => S (calls_until_return rs')
  end.

Definition is_create_initial_response (i : CommandInteraction) (c : Call) : bool :=
  match c with
  | create_initial_response j _ => bool_decide (j = i)
  | _ => false
  end.

Definition is_execute (i : CommandInteraction) (c : Call) : bool :=
  match c with
  | execute j _ _ => bool_decide (j = i)
  | _ => false
  end.

(** The keyword arguments a call to the interaction carries. *)
Definition call_kwargs (c : Call) : gmap string Value :=
  match c with
  | create_initial_response _ kwargs => kwargs
  | execute _ _ kwargs => kwargs
  | _ => ∅
  end.

(** A proxy that holds a message and no fetcher, or a fetcher and no message. *)
Definition exactly_one (p : ResponseProxy) : bool :=
  match _message p, _fetcher p with
  | Some _, None => true
  | None, Some _ => true
  | _, _ => false
  end.

Definition has_message (p : ResponseProxy) : bool :=
  match _message p, _fetcher p with
  | Some _, None => true
  | _, _ => false
  end.


(** * Properties *)

(** ** The monad and the log *)

Lemma log_call_platform (c : Call) (w : World) :
  platform (log_call c w) = platform w.
Proof. reflexivity. Qed.

Lemma await_run (c : Call) (w : World) :
  await c w = (outcome_result (platform w (calls w) c), log_call c w).
Proof. unfold await. destruct (platform w (calls w) c); reflexivity. Qed.

Lemma fetch_count_app (f : Fetcher) (l1 l2 : list Call) :
  fetch_count f (l1 ++ l2) = fetch_count f l1 + fetch_count f l2.
Proof.
  induction l1 as [|c l1 IH]; simpl; [reflexivity|].
  destruct c; try exact IH.
  case_decide; rewrite IH; reflexivity.
Qed.

Lemma fetch_count_repeat (f : Fetcher) (n : nat) :
  fetch_count f (repeat (call_fetcher f) n) = n.
Proof.
  induction n as [|n IH]; simpl; [reflexivity|].
  rewrite decide_True by reflexivity. by rewrite IH.
Qed.

(** ** [OptionsProxy] *)

(** C5, as amended.  Evaluating [proxy.k] always yields a value.  For a name
    that ordinary attribute lookup does not find (it is not [_options], not
    a method of the class body, and not a name the running interpreter has
    on the class or on [object]), [proxy.k] is the value the mapping holds
    for [k] when the key is present, and [None] when it is absent. *)
Theorem OptionsProxy_getattr_unshadowed (runtime : string -> bool)
    (options : gmap string Value) (k : string) :
  k ≠ "_options" ->
  k ∉ OptionsProxy.class_body ->
  runtime k = false ->
  (forall v, options !! k = Some v ->
     OptionsProxy.getattr runtime (OptionsProxy.__init__ options) k = Val v)
  /\ (options !! k = None ->
      OptionsProxy.getattr runtime (OptionsProxy.__init__ options) k = Val VNone).
Proof.
  intros Hslot Hclass Hruntime. unfold OptionsProxy.getattr.
  rewrite decide_False by exact Hslot.
  rewrite decide_False by exact Hclass.
  rewrite Hruntime.
  unfold OptionsProxy.__getattr__, OptionsProxy.__init__; simpl.
  split.
  - intros v Hv. by rewrite Hv.
  - intros Hv. by rewrite Hv.
Qed.

Lemma OptionsProxy_getattr_unshadowed_witness :
  OptionsProxy.getattr OptionsProxy.cpython_3_11
    (OptionsProxy.__init__ {[ "count" := VInt 3 ]}) "count"
    = Val (VInt 3)
  /\ OptionsProxy.getattr OptionsProxy.cpython_3_11
       (OptionsProxy.__init__ {[ "count" := VInt 3 ]}) "user"
    = Val VNone.
Proof.
  split.
  - apply (OptionsProxy_getattr_unshadowed OptionsProxy.cpython_3_11
             {[ "count" := VInt 3 ]} "count").
    + discriminate.
    + compute_done.
    + reflexivity.
    + reflexivity.
  - apply (OptionsProxy_getattr_unshadowed OptionsProxy.cpython_3_11
             {[ "count" := VInt 3 ]} "user").
    + discriminate.
    + compute_done.
    + reflexivity.
    + reflexivity.
Defined.

(** C5, as stated, fails for an option named [_options]: the key is in the
    mapping, and [proxy._options] is the mapping itself, found by ordinary
    lookup before [__getattr__] is tried, whatever the interpreter has on
    the class. *)
Example OptionsProxy_getattr_shadowed :
  ({[ "_options" := VInt 1 ]} : gmap string Value) !! "_options" = Some (VInt 1)
  /\ OptionsProxy.getattr OptionsProxy.cpython_3_11
       (OptionsProxy.__init__ {[ "_options" := VInt 1 ]}) "_options"
     = Mapping {[ "_options" := VInt 1 ]}
  /\ OptionsProxy.getattr OptionsProxy.cpython_3_11
       (OptionsProxy.__init__ {[ "_options" := VInt 1 ]}) "_options"
     ≠ Val (VInt 1)
  /\ (forall runtime,
        OptionsProxy.getattr runtime
          (OptionsProxy.__init__ {[ "_options" := VInt 1 ]}) "_options"
        = Mapping {[ "_options" := VInt 1 ]}).
Proof.
  split; [reflexivity|]. split; [reflexivity|]. split; [discriminate|].
  intros runtime. reflexivity.
Qed.

(** A name the interpreter has on [object] never reaches [__getattr__],
    also when the mapping has it as a key. *)
Example OptionsProxy_getattr_runtime_name :
  OptionsProxy.getattr OptionsProxy.cpython_3_11
    (OptionsProxy.__init__ {[ "__getstate__" := VInt 1 ]}) "__getstate__"
  = ClassAttr "__getstate__".
Proof. reflexivity. Qed.

(** [__getattr__] itself is a total [get]: the mapped value, or [None]. *)
Lemma OptionsProxy_getattr_fallback (options : gmap string Value) (k : string) :
  OptionsProxy.__getattr__ (OptionsProxy.__init__ options) k
  = match options !! k with Some v => v | None => VNone end.
Proof. unfold OptionsProxy.__getattr__; simpl. by destruct (options !! k). Qed.

(** ** [ResponseProxy] *)

(** C3, as amended.  Construction fails, with a [ValueError], exactly when
    both arguments are absent; with at least one of them present (one or
    both) it succeeds and stores the two arguments as given. *)
Theorem ResponseProxy_init_at_least_one
    (message : option Message) (fetcher : option Fetcher) :
  (message = None /\ fetcher = None <->
   ResponseProxy.__init__ message fetcher
   = Raise (ValueError "One of message or fetcher arguments cannot be None"))
  /\ (is_Some message \/ is_Some fetcher <->
      ResponseProxy.__init__ message fetcher
      = Ok {| _message := message; _fetcher := fetcher |}).
Proof.
  destruct message as [m|], fetcher as [f|]; simpl; split; split; intros H;
    first [ reflexivity
          | discriminate H
          | by destruct H
          | by split
          | by left; eexists
          | by right; eexists
          | by destruct H as [[? ?]|[? ?]] ].
Qed.

(** C3, as stated, fails when both arguments are supplied: that is not
    "exactly one", and construction succeeds. *)
Example ResponseProxy_init_both :
  ResponseProxy.__init__ (Some (mkMessage 5)) (Some (other_fetcher 9))
  = Ok {| _message := Some (mkMessage 5); _fetcher := Some (other_fetcher 9) |}.
Proof. reflexivity. Qed.

(** C6.  A proxy constructed with a known message [m], with or without a
    fetcher, returns [m] from every call of [message()] and leaves the world
    as it was: no call is made, so no fetcher is invoked. *)
Theorem message_known (m : Message) (fetcher : option Fetcher) (n : nat) (w : World) :
  ResponseProxy.__init__ (Some m) fetcher
  = Ok {| _message := Some m; _fetcher := fetcher |}
  /\ ResponseProxy.message {| _message := Some m; _fetcher := fetcher |} w
     = (Ok (Some m), w)
  /\ message_times n {| _message := Some m; _fetcher := fetcher |} w
     = (Ok (repeat (Some m) n), w).
Proof.
  split; [reflexivity|]. split; [reflexivity|].
  induction n as [|n IH]; [reflexivity|].
  simpl. unfold bind at 1. simpl. unfold bind at 1. rewrite IH. reflexivity.
Qed.

(** One call of [message()] on a proxy that holds only a fetcher: the fetcher
    is invoked, and its answer is the result. *)
Lemma message_fetch (f : Fetcher) (w : World) :
  ResponseProxy.message {| _message := None; _fetcher := Some f |} w
  = (outcome_result (platform w (calls w) (call_fetcher f)),
     log_call (call_fetcher f) w).
Proof.
  unfold ResponseProxy.message; simpl. unfold bind. rewrite await_run.
  destruct (platform w (calls w) (call_fetcher f)); reflexivity.
Qed.

(** C4, as amended.  A proxy built from a fetcher alone does not keep what it
    fetched: each call of [message()] invokes the fetcher once more and
    returns the answer to that invocation.  So [n] calls that succeed leave
    [n] more invocations of the fetcher in the log, and the result of call
    number [j] is what the fetcher answered after the [j] invocations before
    it. *)
Theorem message_not_memoized (f : Fetcher) (n : nat) (w : World) :
  (forall log, exists m, platform w log (call_fetcher f) = Returns m) ->
  ResponseProxy.__init__ None (Some f)
  = Ok {| _message := None; _fetcher := Some f |}
  /\ exists ms w',
      message_times n {| _message := None; _fetcher := Some f |} w = (Ok ms, w')
      /\ length ms = n
      /\ calls w' = calls w ++ repeat (call_fetcher f) n
      /\ fetch_count f (calls w') = fetch_count f (calls w) + n
      /\ forall j, j < n ->
           exists m,
             ms !! j = Some m
             /\ platform w (calls w ++ repeat (call_fetcher f) j) (call_fetcher f)
                = Returns m.
Proof.
  intros Hpf. split; [reflexivity|].
  revert w Hpf. induction n as [|n IH]; intros w Hpf.
  - exists [], w. simpl. rewrite app_nil_r. repeat split; lia.
  - destruct (Hpf (calls w)) as [m Hm].
    destruct (IH (log_call (call_fetcher f) w) Hpf)
      as (ms & w' & Hrun & Hlen & Hcalls & Hcount & Hres).
    exists (m :: ms), w'.
    split.
    { simpl. unfold bind at 1. rewrite message_fetch, Hm. simpl.
      unfold bind at 1. rewrite Hrun. reflexivity. }
    split; [simpl; by rewrite Hlen|].
    split.
    { rewrite Hcalls. simpl. rewrite <- app_assoc. reflexivity. }
    split.
    { rewrite Hcount. simpl. rewrite fetch_count_app. simpl.
      rewrite decide_True by reflexivity. lia. }
    intros [|j] Hj.
    + exists m. split; [reflexivity|]. simpl. by rewrite app_nil_r.
    + destruct (Hres j ltac:(lia)) as (m' & Hlook & Hans).
      exists m'. split; [exact Hlook|].
      simpl in Hans. rewrite <- app_assoc in Hans. exact Hans.
Qed.

Lemma message_not_memoized_witness :
  exists ms w',
    message_times 3 {| _message := None; _fetcher := Some (other_fetcher 9) |}
      (fresh_world numbering_platform) = (Ok ms, w')
    /\ length ms = 3
    /\ calls w' = [] ++ repeat (call_fetcher (other_fetcher 9)) 3
    /\ fetch_count (other_fetcher 9) (calls w') = 0 + 3
    /\ forall j, j < 3 ->
         exists m,
           ms !! j = Some m
           /\ numbering_platform ([] ++ repeat (call_fetcher (other_fetcher 9)) j)
                (call_fetcher (other_fetcher 9))
              = Returns m.
Proof.
  apply (message_not_memoized (other_fetcher 9) 3 (fresh_world numbering_platform)).
  intros log. simpl. eauto.
Defined.

(** C4, as stated, fails: two calls of [message()] on one fetcher-built proxy
    invoke the fetcher twice, and the second call returns what the second
    invocation produced, not the first result. *)
Example message_fetches_twice :
  message_times 2 {| _message := None; _fetcher := Some (other_fetcher 9) |}
    (fresh_world numbering_platform)
  = (Ok [Some (mkMessage 0); Some (mkMessage 1)],
     {| platform := numbering_platform;
        calls := [call_fetcher (other_fetcher 9); call_fetcher (other_fetcher 9)];
        scheduled := [] |}).
Proof. reflexivity. Qed.

(** ** [Context] *)



(** ** [ApplicationContext] *)

Lemma last_response_appended (self : ApplicationContext) (p : ResponseProxy) (w : World) :
  ApplicationContext.last_response (ApplicationContext.with_response self p, w)
  = (Ok p, (ApplicationContext.with_response self p, w)).
Proof.
  unfold ApplicationContext.last_response; simpl. by rewrite last_snoc.
Qed.


(** The first call, whatever its arguments: the keyword arguments that reach
    [create_initial_response], and what the call's outcome does to the
    context. *)
(** Lookups in keyword arguments built by [pop], [setdefault] and item
    assignment, by cases on the positional arguments. *)
Ltac kwargs_lookup :=
  repeat match goal with x := _ |- _ => subst x end;
  unfold pop, setdefault;
  repeat match goal with
         | |- context [match ?l with [] => _ | _ :: _ => _ end] =>
             is_var l; destruct l
         | |- context [isinstance_ResponseType ?a] =>
             destruct (isinstance_ResponseType a); simpl
         end;
  repeat case_match; simplify_map_eq; done.

Lemma respond_initial_run (self : ApplicationContext) (w : World)
    (args : list Value) (kwargs : gmap string Value) :
  _responses (super self) = [] ->
  exists kw,
    kw !! "response_type"
    = match args with
      | [] => kwargs !! "response_type"
      | a0 :: _ =>
          if isinstance_ResponseType a0 then Some a0
          else Some (default (VResponseType MESSAGE_CREATE) (kwargs !! "response_type"))
      end
    /\ kw !! "content"
      = match args with
        | [] => kwargs !! "content"
        | a0 :: rest =>
            if isinstance_ResponseType a0 then
              match rest with
              | [] => kwargs !! "content"
              | a1 :: _ => Some (default a1 (kwargs !! "content"))
              end
            else Some a0
        end
    /\ (forall k, k ∈ ["reply"; "mentions_reply"; "nonce"; "attachment"; "attachments"] ->
        kw !! k = None)
    /\ (forall k, k ∉ ["reply"; "mentions_reply"; "nonce"; "attachment"; "attachments";
                       "content"; "response_type"] ->
        kw !! k = kwargs !! k)
    /\ ApplicationContext.respond args kwargs (self, w)
      = match platform w (calls w) (create_initial_response (_interaction self) kw) with
        | Raises e =>
            (Raise e, (self, log_call (create_initial_response (_interaction self) kw) w))
        | Returns _ =>
            let p := {| _message := None;
                        _fetcher := Some (fetch_initial_response (_interaction self)) |} in
            (Ok p, (ApplicationContext.with_response self p,
                    log_call (create_initial_response (_interaction self) kw) w))
        end.
Proof.
  intros Hempty.
  set (kw0 := pop "nonce" (pop "mentions_reply" (pop "reply" kwargs))).
  set (kw1 := match args with
              | [] => kw0
              | a0 :: rest =>
                  if negb (isinstance_ResponseType a0) then
                    setdefault "response_type" (VResponseType MESSAGE_CREATE)
                      (<["content" := a0]> kw0)
                  else
                    match rest with
                    | a1 :: _ => setdefault "content" a1 (<["response_type" := a0]> kw0)
                    | [] => <["response_type" := a0]> kw0
                    end
              end).
  exists (pop "attachments" (pop "attachment" kw1)).
  split; [|split; [|split; [|split]]]; last first.
  - unfold ApplicationContext.respond.
    unfold bind at 1. unfold ApplicationContext.get_self at 1. cbn [fst snd].
    rewrite Hempty.
    change (pop "nonce" (pop "mentions_reply" (pop "reply" kwargs))) with kw0.
    change (match args with
            | [] => kw0
            | a0 :: rest =>
                if negb (isinstance_ResponseType a0) then
                  setdefault "response_type" (VResponseType MESSAGE_CREATE)
                    (<["content" := a0]> kw0)
                else
                  match rest with
                  | [] => <["response_type" := a0]> kw0
                  | a1 :: _ => setdefault "content" a1 (<["response_type" := a0]> kw0)
                  end
            end) with kw1.
    generalize (pop "attachments" (pop "attachment" kw1)); intros kw.
    unfold bind at 1. unfold ApplicationContext.in_world. cbn [fst snd].
    rewrite await_run.
    destruct (platform w (calls w) _) as [e|r]; simpl; [reflexivity|].
    unfold bind at 1. unfold lift_result. simpl.
    unfold bind at 1. unfold ApplicationContext.append_response. simpl.
    apply last_response_appended.
  - intros k Hk. rewrite !not_elem_of_cons in Hk. destruct_and!. kwargs_lookup.
  - intros k Hk. rewrite !elem_of_cons, elem_of_nil in Hk.
    destruct Hk as [->|[->|[->|[->|[->|[]]]]]]; kwargs_lookup.
  - kwargs_lookup.
  - kwargs_lookup.
Qed.

(** A later call, whatever its arguments: what reaches [execute], and what
    the call's outcome does to the context. *)
Lemma respond_followup_run (self : ApplicationContext) (w : World)
    (args : list Value) (kwargs : gmap string Value) :
  _responses (super self) ≠ [] ->
  exists args' kw',
    (forall a rest, args = a :: rest -> isinstance_ResponseType a = true -> args' = rest)
    /\ ((forall a rest, args = a :: rest -> isinstance_ResponseType a = false) ->
        args' = args)
    /\ (forall k, k ∈ ["reply"; "mentions_reply"; "nonce"; "response_type"] ->
        kw' !! k = None)
    /\ (forall k, k ∉ ["reply"; "mentions_reply"; "nonce"; "response_type"] ->
        kw' !! k = kwargs !! k)
    /\ ApplicationContext.respond args kwargs (self, w)
      = match platform w (calls w) (execute (_interaction self) args' kw') with
        | Raises e =>
            (Raise e, (self, log_call (execute (_interaction self) args' kw') w))
        | Returns None =>
            (Raise (ValueError "One of message or fetcher arguments cannot be None"),
             (self, log_call (execute (_interaction self) args' kw') w))
        | Returns (Some m) =>
            let p := {| _message := Some m; _fetcher := None |} in
            (Ok p, (ApplicationContext.with_response self p,
                    log_call (execute (_interaction self) args' kw') w))
        end.
Proof.
  intros Hsome.
  exists (match args with
          | a0 :: rest => if isinstance_ResponseType a0 then rest else args
          | [] => args
          end),
         (pop "response_type" (pop "nonce" (pop "mentions_reply" (pop "reply" kwargs)))).
  split; [|split; [|split; [|split]]].
  - intros a rest -> Ha. by rewrite Ha.
  - intros Hno. destruct args as [|a rest]; [reflexivity|].
    by rewrite (Hno a rest eq_refl).
  - intros k Hk. rewrite !elem_of_cons, elem_of_nil in Hk.
    destruct Hk as [->|[->|[->|[->|[]]]]]; kwargs_lookup.
  - intros k Hk. rewrite !not_elem_of_cons in Hk. destruct_and!. kwargs_lookup.
  - unfold ApplicationContext.respond.
    unfold bind at 1. unfold ApplicationContext.get_self at 1. cbn [fst snd].
    destruct (_responses (super self)) as [|p0 ps] eqn:Eresp; [done|].
    generalize (match args with
                | a0 :: rest => if isinstance_ResponseType a0 then rest else args
                | [] => args
                end); intros args'.
    generalize (pop "response_type" (pop "nonce" (pop "mentions_reply" (pop "reply" kwargs))));
      intros kw'.
    unfold bind at 1. unfold ApplicationContext.in_world. cbn [fst snd].
    rewrite await_run.
    destruct (platform w (calls w) _) as [e|[m|]]; simpl; [reflexivity| |reflexivity].
    unfold bind at 1. unfold lift_result. simpl.
    unfold bind at 1. unfold ApplicationContext.append_response. simpl.
    apply last_response_appended.
Qed.

(** C1.  On a context with an empty history, a first call whose first
    positional argument [c] is not a response type reaches
    [create_initial_response] with [content] set to [c] and [response_type]
    set to the caller's keyword, [MESSAGE_CREATE] when there is none: that
    call, and no other, is added to the log of platform calls.  When it
    returns, the proxy returned holds no message and the interaction's
    [fetch_initial_response] as its fetcher, it is the one entry of the
    history, and the history has length 1. *)
Theorem respond_first_content (self : ApplicationContext) (w : World)
    (c : Value) (rest : list Value) (kwargs : gmap string Value) :
  _responses (super self) = [] ->
  isinstance_ResponseType c = false ->
  exists kw,
    kw !! "content" = Some c
    /\ kw !! "response_type"
      = Some (default (VResponseType MESSAGE_CREATE) (kwargs !! "response_type"))
    /\ (kwargs = ∅ ->
        kw = {[ "content" := c; "response_type" := VResponseType MESSAGE_CREATE ]})
    /\ forall r,
        platform w (calls w) (create_initial_response (_interaction self) kw) = Returns r ->
        let p := {| _message := None;
                    _fetcher := Some (fetch_initial_response (_interaction self)) |} in
        ApplicationContext.respond (c :: rest) kwargs (self, w)
        = (Ok p,
           (ApplicationContext.with_response self p,
            {| platform := platform w;
               calls := calls w ++ [create_initial_response (_interaction self) kw];
               scheduled := scheduled w |}))
        /\ calls (snd (snd (ApplicationContext.respond (c :: rest) kwargs (self, w))))
           = calls w ++ [create_initial_response (_interaction self) kw]
        /\ _responses (super (ApplicationContext.with_response self p)) = [p]
        /\ length (_responses (super (ApplicationContext.with_response self p))) = 1.
Proof.
  intros Hempty Hc.
  destruct (respond_initial_run self w (c :: rest) kwargs Hempty)
    as (kw & Hrt & Hcontent & Hgone & Hother & Hrun).
  rewrite Hc in Hrt, Hcontent.
  exists kw. split; [exact Hcontent|]. split; [exact Hrt|]. split.
  - intros ->. apply map_eq. intros k.
    destruct (decide (k = "content")) as [->|Hkc]; [by rewrite Hcontent|].
    destruct (decide (k = "response_type")) as [->|Hkr]; [by rewrite Hrt|].
    rewrite lookup_insert_ne, lookup_singleton_ne by done.
    destruct (decide (k ∈ ["reply"; "mentions_reply"; "nonce"; "attachment"; "attachments"]))
      as [Hin|Hout]; [by apply Hgone|].
    rewrite Hother; [apply lookup_empty|].
    intros Hin. apply Hout.
    rewrite !elem_of_cons, elem_of_nil in Hin. rewrite !elem_of_cons, elem_of_nil. tauto.
  - intros r Hr p. rewrite Hrun, Hr. subst p. simpl.
    rewrite Hempty. repeat split.
Qed.


Lemma respond_first_content_witness :
  ApplicationContext.respond [VStr "hello"] ∅ (context0, fresh_world numbering_platform)
  = (Ok initial_proxy,
     (context1,
      {| platform := numbering_platform;
         calls :=
           [create_initial_response interaction0
              {[ "content" := VStr "hello";
                 "response_type" := VResponseType MESSAGE_CREATE ]}];
         scheduled := [] |}))
  /\ calls (snd (snd (ApplicationContext.respond [VStr "hello"] ∅
                        (context0, fresh_world numbering_platform))))
     = [create_initial_response interaction0
          {[ "content" := VStr "hello";
             "response_type" := VResponseType MESSAGE_CREATE ]}].
Proof.
  destruct (respond_first_content context0 (fresh_world numbering_platform)
              (VStr "hello") [] ∅ eq_refl eq_refl)
    as (kw & _ & _ & Hkw & Hrun).
  rewrite (Hkw eq_refl) in Hrun.
  destruct (Hrun None eq_refl) as (H1 & H2 & _).
  split; [exact H1|exact H2].
Defined.



(** C9.  [respond] makes one platform call: [create_initial_response] when
    the history is empty, [execute] otherwise.  If the platform raises [e] on
    that call, [respond] raises the same [e] and the context is exactly as it
    was before the call: nothing is appended to the history. *)
Theorem respond_platform_failure (self : ApplicationContext) (w : World)
    (args : list Value) (kwargs : gmap string Value) :
  exists c,
    calls (snd (snd (ApplicationContext.respond args kwargs (self, w)))) = calls w ++ [c]
    /\ (_responses (super self) = [] ->
        exists kw, c = create_initial_response (_interaction self) kw)
    /\ (_responses (super self) ≠ [] ->
        exists args' kw', c = execute (_interaction self) args' kw')
    /\ forall e,
        platform w (calls w) c = Raises e ->
        ApplicationContext.respond args kwargs (self, w)
        = (Raise e, (self, log_call c w))
        /\ _responses (super (fst (snd (ApplicationContext.respond args kwargs (self, w)))))
           = _responses (super self).
Proof.
  destruct (_responses (super self)) as [|p0 ps] eqn:Eresp.
  - destruct (respond_initial_run self w args kwargs Eresp)
      as (kw & _ & _ & _ & _ & Hrun).
    exists (create_initial_response (_interaction self) kw).
    split; [rewrite Hrun; by destruct (platform w (calls w) _)|].
    split; [intros _; by exists kw|].
    split; [intros Hne; by destruct Hne|].
    intros e He. rewrite Hrun, He. simpl. by rewrite Eresp.
  - assert (Hsome : _responses (super self) ≠ []) by (rewrite Eresp; discriminate).
    destruct (respond_followup_run self w args kwargs Hsome)
      as (args' & kw' & _ & _ & _ & _ & Hrun).
    exists (execute (_interaction self) args' kw').
    split; [rewrite Hrun; by destruct (platform w (calls w) _) as [?|[?|]]|].
    split; [discriminate|].
    split; [intros _; by exists args', kw'|].
    intros e He. rewrite Hrun, He. simpl. by rewrite Eresp.
Qed.

Lemma respond_platform_failure_witness :
  fst (ApplicationContext.respond [VStr "hello"] ∅
        (context0, fresh_world forbidden_platform))
  = Raise (HikariError 403)
  /\ fst (snd (ApplicationContext.respond [VStr "hello"] ∅
                (context0, fresh_world forbidden_platform)))
     = context0
  /\ fst (ApplicationContext.respond [VStr "world"] ∅
           (context1, fresh_world forbidden_platform))
     = Raise (HikariError 403)
  /\ fst (snd (ApplicationContext.respond [VStr "world"] ∅
                (context1, fresh_world forbidden_platform)))
     = context1.
Proof.
  destruct (respond_platform_failure context0 (fresh_world forbidden_platform)
              [VStr "hello"] ∅) as (c0 & _ & _ & _ & Hfail0).
  destruct (Hfail0 (HikariError 403) eq_refl) as [Hrun0 _].
  destruct (respond_platform_failure context1 (fresh_world forbidden_platform)
              [VStr "world"] ∅) as (c1 & _ & _ & _ & Hfail1).
  destruct (Hfail1 (HikariError 403) eq_refl) as [Hrun1 _].
  rewrite Hrun0, Hrun1. repeat split.
Defined.

(** C10.  On the first call, [respond] itself sets [response_type] only from
    a positional argument.  With no positional argument the call that
    reaches [create_initial_response] carries [response_type] exactly as the
    caller's keywords had it, so none at all when the caller gave none, also
    when [content] came as a keyword.  And whenever the caller gave no
    [response_type] keyword and the call carries one, there was a first
    positional argument: content, with [MESSAGE_CREATE] as the default, or a
    response type, passed as it is. *)
Theorem respond_first_no_positional (self : ApplicationContext) (w : World)
    (kwargs : gmap string Value) :
  _responses (super self) = [] ->
  (exists kw,
     calls (snd (snd (ApplicationContext.respond [] kwargs (self, w))))
     = calls w ++ [create_initial_response (_interaction self) kw]
     /\ kw !! "response_type" = kwargs !! "response_type"
     /\ (kwargs !! "response_type" = None -> kw !! "response_type" = None)
     /\ kw !! "content" = kwargs !! "content")
  /\ (forall args kw v,
       calls (snd (snd (ApplicationContext.respond args kwargs (self, w))))
       = calls w ++ [create_initial_response (_interaction self) kw] ->
       kwargs !! "response_type" = None ->
       kw !! "response_type" = Some v ->
       exists a rest,
         args = a :: rest
         /\ (isinstance_ResponseType a = false /\ v = VResponseType MESSAGE_CREATE
             \/ isinstance_ResponseType a = true /\ v = a)).
Proof.
  intros Hempty. split.
  - destruct (respond_initial_run self w [] kwargs Hempty)
      as (kw & Hrt & Hcontent & _ & _ & Hrun).
    exists kw. split; [rewrite Hrun; by destruct (platform w (calls w) _)|].
    split; [exact Hrt|]. split; [intros Hnone; by rewrite Hrt|exact Hcontent].
  - intros args kw v Hcall Hnone Hv.
    destruct (respond_initial_run self w args kwargs Hempty)
      as (kw1 & Hrt & _ & _ & _ & Hrun).
    assert (Hsame : kw = kw1).
    { rewrite Hrun in Hcall.
      assert (Hlog : calls w ++ [create_initial_response (_interaction self) kw1]
                     = calls w ++ [create_initial_response (_interaction self) kw])
        by (by destruct (platform w (calls w) _)).
      apply app_inv_head in Hlog. by inversion Hlog. }
    subst kw1. rewrite Hv in Hrt.
    destruct args as [|a rest]; [congruence|].
    exists a, rest. split; [reflexivity|].
    destruct (isinstance_ResponseType a).
    + right. split; [reflexivity|congruence].
    + left. split; [reflexivity|]. rewrite Hnone in Hrt. simpl in Hrt. congruence.
Qed.

Lemma respond_first_no_positional_witness :
  exists kw,
    calls (snd (snd (ApplicationContext.respond [] {[ "content" := VStr "hello" ]}
                       (context0, fresh_world numbering_platform))))
    = [] ++ [create_initial_response interaction0 kw]
    /\ kw !! "response_type" = None
    /\ kw !! "content" = Some (VStr "hello").
Proof.
  destruct (proj1 (respond_first_no_positional context0 (fresh_world numbering_platform)
                     {[ "content" := VStr "hello" ]} eq_refl))
    as (kw & Hcall & _ & Hnone & Hcontent).
  exists kw. split; [exact Hcall|]. split; [exact (Hnone eq_refl)|exact Hcontent].
Defined.

(** C8.  Constructing an [ApplicationContext] from an event that carries a
    command interaction makes no platform call and returns a context with an
    empty history.  If the command's [auto_defer] flag is set, one task is
    handed to the event loop, the coroutine of
    [respond(DEFERRED_MESSAGE_CREATE)], which has not run when the
    constructor returns; if the flag is not set, nothing is scheduled. *)
Theorem init_auto_defer (app : BotApp) (event : InteractionCreateEvent)
    (cmd : Command) (i : CommandInteraction) (w : World) :
  interaction event = IsCommandInteraction i ->
  exists self w',
    ApplicationContext.__init__ app event cmd w = (Ok self, w')
    /\ _responses (super self) = []
    /\ _interaction self = i
    /\ _command self = cmd
    /\ calls w' = calls w
    /\ platform w' = platform w
    /\ (auto_defer cmd = true ->
        scheduled w'
        = scheduled w ++ [respond_coroutine [VResponseType DEFERRED_MESSAGE_CREATE] ∅])
    /\ (auto_defer cmd = false -> w' = w)
    /\ (forall s,
         ApplicationContext.run_task
           (respond_coroutine [VResponseType DEFERRED_MESSAGE_CREATE] ∅) s
         = ApplicationContext.respond [VResponseType DEFERRED_MESSAGE_CREATE] ∅ s).
Proof.
  intros Hev. unfold ApplicationContext.__init__. rewrite Hev.
  destruct (auto_defer cmd) eqn:Hflag.
  - eexists _, _. split; [reflexivity|]. simpl. repeat split. discriminate.
  - eexists _, _. split; [reflexivity|]. simpl. repeat split. discriminate.
Qed.

Lemma init_auto_defer_witness :
  exists self w',
    ApplicationContext.__init__ app0 event0 slow (fresh_world numbering_platform)
    = (Ok self, w')
    /\ _responses (super self) = []
    /\ calls w' = []
    /\ scheduled w' = [respond_coroutine [VResponseType DEFERRED_MESSAGE_CREATE] ∅].
Proof.
  destruct (init_auto_defer app0 event0 slow interaction0
              (fresh_world numbering_platform) eq_refl)
    as (self & w' & Hrun & Hresp & _ & _ & Hcalls & _ & Hsched & _).
  exists self, w'. split; [exact Hrun|]. split; [exact Hresp|].
  split; [exact Hcalls|exact (Hsched eq_refl)].
Defined.

(** The deferred task, run on a context that has not responded: the initial
    response is created with [response_type] set to
    [DEFERRED_MESSAGE_CREATE] and no content. *)
Example deferred_task_run :
  ApplicationContext.run_task
    (respond_coroutine [VResponseType DEFERRED_MESSAGE_CREATE] ∅)
    (context0, fresh_world numbering_platform)
  = (Ok initial_proxy,
     (context1,
      log_call
        (create_initial_response interaction0
           {[ "response_type" := VResponseType DEFERRED_MESSAGE_CREATE ]})
        (fresh_world numbering_platform))).
Proof. reflexivity. Qed.

(** The two calls of the scenario, one after the other. *)
Example respond_hello_world :
  (do _ <- ApplicationContext.respond [VStr "hello"] ∅;
   ApplicationContext.respond [VStr "world"] ∅)
    (context0, fresh_world numbering_platform)
  = (Ok {| _message := Some (mkMessage 1); _fetcher := None |},
     ({| super := {| _app := app0;
                     _responses :=
                       [initial_proxy;
                        {| _message := Some (mkMessage 1); _fetcher := None |}] |};
         _event := event0; _interaction := interaction0; _command := ping |},
      {| platform := numbering_platform;
         calls :=
           [create_initial_response interaction0
              {[ "content" := VStr "hello";
                 "response_type" := VResponseType MESSAGE_CREATE ]};
            execute interaction0 [VStr "world"] ∅];
         scheduled := [] |})).
Proof. reflexivity. Qed.

(** ** One call of [respond], whatever its outcome *)

(** The call is logged and nothing else in the world changes; the call is an
    initial response on an empty history and an [execute] otherwise; the
    context is unchanged when the call raises, and has the returned proxy
    appended when it returns. *)
Lemma respond_step (self : ApplicationContext) (w : World)
    (args : list Value) (kwargs : gmap string Value) :
  exists c r self',
    ApplicationContext.respond args kwargs (self, w) = (r, (self', log_call c w))
    /\ match _responses (super self) with
       | [] => is_create_initial_response (_interaction self) c = true
       | _ :: _ => is_execute (_interaction self) c = true
       end
    /\ ((exists e, r = Raise e /\ self' = self)
        \/ (exists p,
              r = Ok p
              /\ self' = ApplicationContext.with_response self p
              /\ match _responses (super self) with
                 | [] =>
                     p = {| _message := None;
                            _fetcher := Some (fetch_initial_response (_interaction self)) |}
                 | _ :: _ =>
                     exists m,
                       platform w (calls w) c = Returns (Some m)
                       /\ p = {| _message := Some m; _fetcher := None |}
                 end)).
Proof.
  destruct (_responses (super self)) as [|p0 ps] eqn:Eresp.
  - destruct (respond_initial_run self w args kwargs Eresp)
      as (kw & _ & _ & _ & _ & Hrun).
    exists (create_initial_response (_interaction self) kw).
    destruct (platform w (calls w) (create_initial_response (_interaction self) kw))
      as [e|r] eqn:Hpf; rewrite Hrun; eexists _, _; (split; [reflexivity|]);
      (split; [simpl; by rewrite bool_decide_eq_true|]).
    + left. by exists e.
    + right. eexists. split; [reflexivity|]. split; reflexivity.
  - assert (Hsome : _responses (super self) ≠ []) by (rewrite Eresp; discriminate).
    destruct (respond_followup_run self w args kwargs Hsome)
      as (args' & kw' & _ & _ & _ & _ & Hrun).
    exists (execute (_interaction self) args' kw').
    destruct (platform w (calls w) (execute (_interaction self) args' kw'))
      as [e|[m|]] eqn:Hpf; rewrite Hrun; eexists _, _; (split; [reflexivity|]);
      (split; [simpl; by rewrite bool_decide_eq_true|]).
    + left. by eexists.
    + right. eexists. split; [reflexivity|]. split; [reflexivity|]. by exists m.
    + left. by eexists.
Qed.

(** ** Several calls of [respond] *)

Lemma respond_all_run (reqs : list (list Value * gmap string Value)) :
  forall (self : ApplicationContext) (w : World),
  exists rs self' new,
    respond_all reqs (self, w)
    = (rs, (self', {| platform := platform w; calls := calls w ++ new;
                      scheduled := scheduled w |}))
    /\ length rs = length reqs
    /\ length new = length reqs
    /\ _responses (super self') = _responses (super self) ++ returned rs
    /\ (_app (super self') = _app (super self)
        /\ _event self' = _event self
        /\ _interaction self' = _interaction self
        /\ _command self' = _command self)
    /\ (_responses (super self) ≠ [] ->
        Forall (fun c => is_execute (_interaction self) c = true) new
        /\ Forall (fun p => has_message p = true) (returned rs))
    /\ (_responses (super self) = [] ->
        Forall (fun c => is_create_initial_response (_interaction self) c = true)
          (take (calls_until_return rs) new)
        /\ Forall (fun c => is_execute (_interaction self) c = true)
             (drop (calls_until_return rs) new)
        /\ match returned rs with
           | [] => True
           | p :: ps =>
               p = {| _message := None;
                      _fetcher := Some (fetch_initial_response (_interaction self)) |}
               /\ Forall (fun p => has_message p = true) ps
           end).
Proof.
  induction reqs as [|[args kwargs] reqs IH]; intros self w.
  - exists [], self, []. simpl. rewrite !app_nil_r. destruct w; simpl.
    repeat split; auto.
  - destruct (respond_step self w args kwargs) as (c & r & self1 & Hrun & Hkind & Hcases).
    destruct (IH self1 (log_call c w))
      as (rs & self' & new & Hall & Hlen & Hnew & Hhist & Hslots & Hlater & Hfirst).
    exists (r :: rs), self', (c :: new).
    assert (Hworld :
      respond_all ((args, kwargs) :: reqs) (self, w)
      = (r :: rs, (self', {| platform := platform w; calls := calls w ++ c :: new;
                             scheduled := scheduled w |}))).
    { simpl. rewrite Hrun, Hall. simpl. by rewrite <- app_assoc. }
    split; [exact Hworld|]. clear Hworld Hrun Hall.
    split; [simpl; by rewrite Hlen|]. split; [simpl; by rewrite Hnew|].
    destruct Hslots as (Happ & Hev & Hint & Hcmd).
    destruct Hcases as [(e & -> & ->)|(p & -> & -> & Hp)].
    + (* the call raised: the context is as before *)
      simpl. split; [exact Hhist|]. split; [by repeat split|]. split.
      * intros Hsome. destruct (Hlater Hsome) as [Hex Hmsg].
        split; [|exact Hmsg]. constructor; [|exact Hex].
        by destruct (_responses (super self)).
      * intros Hempty. destruct (Hfirst Hempty) as (Hcr & Hex & Hret).
        rewrite Hempty in Hkind.
        split; [by constructor|]. split; [exact Hex|exact Hret].
    + (* the call returned: its proxy is appended *)
      simpl in Hhist, Happ, Hev, Hint, Hcmd, Hlater. simpl.
      split; [by rewrite Hhist, <- app_assoc|]. split; [by repeat split|].
      assert (Hne : _responses (super self) ++ [p] ≠ [])
        by (by destruct (_responses (super self))).
      destruct (Hlater Hne) as [Hex Hmsg]. split.
      * intros Hsome. split.
        -- constructor; [|exact Hex]. by destruct (_responses (super self)).
        -- constructor; [|exact Hmsg].
           destruct (_responses (super self)); [done|].
           by destruct Hp as (m & _ & ->).
      * intros Hempty. rewrite Hempty in Hkind, Hp. simpl. rewrite drop_0.
        split; [by repeat constructor|]. split; [exact Hex|]. by split.
Qed.

(** X1.  Every call of [respond] has one outcome and makes exactly one
    platform call, whether it returns or raises: after [n] calls the log is
    [n] entries longer.  [respond] never hands a task to the event loop. *)
Theorem respond_all_one_call_each (reqs : list (list Value * gmap string Value))
    (self : ApplicationContext) (w : World) :
  exists rs self' w' new,
    respond_all reqs (self, w) = (rs, (self', w'))
    /\ length rs = length reqs
    /\ calls w' = calls w ++ new
    /\ length new = length reqs
    /\ scheduled w' = scheduled w
    /\ platform w' = platform w.
Proof.
  destruct (respond_all_run reqs self w)
    as (rs & self' & new & Hall & Hlen & Hnew & _).
  eexists rs, self', _, new. split; [exact Hall|]. by repeat split.
Qed.

(** X2.  The history is append-only and holds exactly the proxies of the
    calls that returned, in order: a call that raises leaves no entry, and
    after any successful call [previous_response] is the proxy returned
    last. *)
Theorem respond_all_history (reqs : list (list Value * gmap string Value))
    (self : ApplicationContext) (w : World) :
  exists rs self' w',
    respond_all reqs (self, w) = (rs, (self', w'))
    /\ _responses (super self') = _responses (super self) ++ returned rs
    /\ length (_responses (super self'))
       = length (_responses (super self)) + length (returned rs)
    /\ length (returned rs) <= length reqs
    /\ (forall p ps, returned rs = ps ++ [p] ->
        Context.previous_response (super self') = Some p).
Proof.
  destruct (respond_all_run reqs self w)
    as (rs & self' & new & Hall & Hlen & _ & Hhist & _).
  eexists rs, self', _. split; [exact Hall|]. split; [exact Hhist|].
  split; [by rewrite Hhist, length_app|]. split.
  - rewrite <- Hlen. clear. induction rs as [|[a|e] rs IH]; simpl; lia.
  - intros p ps Hret. unfold Context.previous_response.
    rewrite Hhist, Hret, app_assoc.
    destruct ((_responses (super self) ++ ps) ++ [p]) eqn:E.
    + by destruct (_responses (super self) ++ ps).
    + rewrite <- E. apply last_snoc.
Qed.

(** X3.  [respond] changes no slot but the history: after any calls the
    properties [event], [interaction], [channel_id], [guild_id],
    [command_id], [invoked_with] and [attachments] of the context, and its
    application, are what they were. *)
Theorem respond_all_properties_stable (reqs : list (list Value * gmap string Value))
    (self : ApplicationContext) (w : World) :
  exists rs self' w',
    respond_all reqs (self, w) = (rs, (self', w'))
    /\ ApplicationContextProperties.event self' = ApplicationContextProperties.event self
    /\ ApplicationContextProperties.interaction self'
       = ApplicationContextProperties.interaction self
    /\ ApplicationContextProperties.channel_id self'
       = ApplicationContextProperties.channel_id self
    /\ ApplicationContextProperties.guild_id self'
       = ApplicationContextProperties.guild_id self
    /\ ApplicationContextProperties.command_id self'
       = ApplicationContextProperties.command_id self
    /\ ApplicationContextProperties.invoked_with self'
       = ApplicationContextProperties.invoked_with self
    /\ ApplicationContextProperties.attachments self' = []
    /\ Context.app (super self') = Context.app (super self).
Proof.
  destruct (respond_all_run reqs self w)
    as (rs & self' & new & Hall & _ & _ & _ & (Happ & Hev & Hint & Hcmd) & _).
  eexists rs, self', _. split; [exact Hall|].
  unfold ApplicationContextProperties.event, ApplicationContextProperties.interaction,
    ApplicationContextProperties.channel_id, ApplicationContextProperties.guild_id,
    ApplicationContextProperties.command_id, ApplicationContextProperties.invoked_with,
    ApplicationContextProperties.attachments, Context.app.
  by rewrite Hev, Hint, Hcmd, Happ.
Qed.





(** X6.  Every proxy [respond] appends holds exactly one of a message and a
    fetcher: if that is true of the whole history before some calls, it is
    true of the whole history after them. *)
Theorem respond_all_exactly_one (reqs : list (list Value * gmap string Value))
    (self : ApplicationContext) (w : World) :
  Forall (fun p => exactly_one p = true) (_responses (super self)) ->
  exists rs self' w',
    respond_all reqs (self, w) = (rs, (self', w'))
    /\ Forall (fun p => exactly_one p = true) (returned rs)
    /\ Forall (fun p => exactly_one p = true) (_responses (super self')).
Proof.
  intros Hinv.
  destruct (respond_all_run reqs self w)
    as (rs & self' & new & Hall & _ & _ & Hhist & _ & Hlater & Hfirst).
  eexists rs, self', _. split; [exact Hall|].
  assert (Hmsg : forall ps : list ResponseProxy,
             Forall (fun p => has_message p = true) ps ->
             Forall (fun p => exactly_one p = true) ps).
  { intros ps Hps. eapply Forall_impl; [exact Hps|].
    intros p. unfold has_message, exactly_one.
    by destruct (_message p), (_fetcher p). }
  assert (Hret : Forall (fun p => exactly_one p = true) (returned rs)).
  { destruct (_responses (super self)) as [|p0 ps0] eqn:Eresp.
    - specialize (Hfirst eq_refl). destruct Hfirst as (_ & _ & Hret).
      destruct (returned rs) as [|p ps]; [constructor|].
      destruct Hret as [-> Hps]. constructor; [reflexivity|by apply Hmsg].
    - apply Hmsg, Hlater. discriminate. }
  split; [exact Hret|]. rewrite Hhist. by apply Forall_app.
Qed.

Lemma respond_all_exactly_one_witness :
  exists rs self' w',
    respond_all [([VStr "a"], ∅); ([VStr "b"], ∅)]
      (context1, fresh_world numbering_platform) = (rs, (self', w'))
    /\ Forall (fun p => exactly_one p = true) (returned rs)
    /\ Forall (fun p => exactly_one p = true) (_responses (super self')).
Proof.
  apply (respond_all_exactly_one [([VStr "a"], ∅); ([VStr "b"], ∅)]
           context1 (fresh_world numbering_platform)).
  repeat constructor.
Defined.

(** ** What reaches the platform *)

(** X7.  The keywords [reply], [mentions_reply] and [nonce] never reach the
    platform, on either path.  The initial response also loses [attachment]
    and [attachments]; a follow-up loses [response_type] but passes
    [attachment] and [attachments] on as the caller gave them. *)
Theorem respond_strips_keywords (self : ApplicationContext) (w : World)
    (args : list Value) (kwargs : gmap string Value) :
  exists c,
    calls (snd (snd (ApplicationContext.respond args kwargs (self, w)))) = calls w ++ [c]
    /\ call_kwargs c !! "reply" = None
    /\ call_kwargs c !! "mentions_reply" = None
    /\ call_kwargs c !! "nonce" = None
    /\ match _responses (super self) with
       | [] =>
           is_create_initial_response (_interaction self) c = true
           /\ call_kwargs c !! "attachment" = None
           /\ call_kwargs c !! "attachments" = None
       | _ :: _ =>
           is_execute (_interaction self) c = true
           /\ call_kwargs c !! "response_type" = None
           /\ call_kwargs c !! "attachment" = kwargs !! "attachment"
           /\ call_kwargs c !! "attachments" = kwargs !! "attachments"
           /\ call_kwargs c !! "content" = kwargs !! "content"
       end.
Proof.
  destruct (_responses (super self)) as [|p0 ps] eqn:Eresp.
  - destruct (respond_initial_run self w args kwargs Eresp)
      as (kw & _ & _ & Hgone & _ & Hrun).
    exists (create_initial_response (_interaction self) kw).
    split; [rewrite Hrun; by destruct (platform w (calls w) _)|]. simpl.
    repeat split; try (apply Hgone; rewrite !elem_of_cons; tauto).
    by rewrite bool_decide_eq_true.
  - assert (Hsome : _responses (super self) ≠ []) by (rewrite Eresp; discriminate).
    destruct (respond_followup_run self w args kwargs Hsome)
      as (args' & kw' & _ & _ & Hgone & Hother & Hrun).
    exists (execute (_interaction self) args' kw').
    split; [rewrite Hrun; by destruct (platform w (calls w) _) as [?|[?|]]|]. simpl.
    assert (Hkeep : forall k, k ≠ "reply" -> k ≠ "mentions_reply" -> k ≠ "nonce" ->
                          k ≠ "response_type" -> kw' !! k = kwargs !! k).
    { intros k H1 H2 H3 H4. apply Hother.
      rewrite !elem_of_cons, elem_of_nil. tauto. }
    repeat split; try (apply Hgone; rewrite !elem_of_cons; tauto);
      try (apply Hkeep; discriminate).
    by rewrite bool_decide_eq_true.
Qed.

(** X8.  On the first call a positional response type wins over a
    [response_type] keyword, whereas a [content] keyword wins over the second
    positional argument; with a response type alone and no [content]
    keyword, no content is set. *)
Theorem respond_first_response_type (self : ApplicationContext) (w : World)
    (rt : ResponseType) (rest : list Value) (kwargs : gmap string Value) :
  _responses (super self) = [] ->
  exists kw,
    calls (snd (snd (ApplicationContext.respond (VResponseType rt :: rest) kwargs (self, w))))
    = calls w ++ [create_initial_response (_interaction self) kw]
    /\ kw !! "response_type" = Some (VResponseType rt)
    /\ (forall v, kwargs !! "content" = Some v -> kw !! "content" = Some v)
    /\ (kwargs !! "content" = None -> kw !! "content" = head rest).
Proof.
  intros Hempty.
  destruct (respond_initial_run self w (VResponseType rt :: rest) kwargs Hempty)
    as (kw & Hrt & Hcontent & _ & _ & Hrun).
  simpl in Hrt, Hcontent.
  exists kw. split; [rewrite Hrun; by destruct (platform w (calls w) _)|].
  split; [exact Hrt|]. split.
  - intros v Hv. rewrite Hcontent, Hv. by destruct rest.
  - intros Hnone. rewrite Hcontent, Hnone. by destruct rest.
Qed.

Lemma respond_first_response_type_witness :
  exists kw,
    calls (snd (snd (ApplicationContext.respond
                       [VResponseType DEFERRED_MESSAGE_CREATE; VStr "later"]
                       {[ "response_type" := VResponseType MESSAGE_CREATE;
                          "content" := VStr "now" ]}
                       (context0, fresh_world numbering_platform))))
    = [] ++ [create_initial_response interaction0 kw]
    /\ kw !! "response_type" = Some (VResponseType DEFERRED_MESSAGE_CREATE)
    /\ kw !! "content" = Some (VStr "now").
Proof.
  destruct (respond_first_response_type context0 (fresh_world numbering_platform)
              DEFERRED_MESSAGE_CREATE [VStr "later"]
              {[ "response_type" := VResponseType MESSAGE_CREATE;
                 "content" := VStr "now" ]} eq_refl)
    as (kw & Hcall & Hrt & Hkey & _).
  exists kw. split; [exact Hcall|]. split; [exact Hrt|].
  apply Hkey. reflexivity.
Defined.

(** The first call [respond(DEFERRED_MESSAGE_CREATE)]: the keyword arguments
    of the initial response are the response type and nothing else. *)
Lemma respond_deferred_initial (self : ApplicationContext) (w : World) :
  _responses (super self) = [] ->
  ApplicationContext.respond [VResponseType DEFERRED_MESSAGE_CREATE] ∅ (self, w)
  = match platform w (calls w)
            (create_initial_response (_interaction self)
               {[ "response_type" := VResponseType DEFERRED_MESSAGE_CREATE ]}) with
    | Raises e =>
        (Raise e,
         (self,
          log_call
            (create_initial_response (_interaction self)
               {[ "response_type" := VResponseType DEFERRED_MESSAGE_CREATE ]}) w))
    | Returns _ =>
        let p := {| _message := None;
                    _fetcher := Some (fetch_initial_response (_interaction self)) |} in
        (Ok p,
         (ApplicationContext.with_response self p,
          log_call
            (create_initial_response (_interaction self)
               {[ "response_type" := VResponseType DEFERRED_MESSAGE_CREATE ]}) w))
    end.
Proof.
  intros Hempty.
  destruct (respond_initial_run self w [VResponseType DEFERRED_MESSAGE_CREATE] ∅ Hempty)
    as (kw & Hrt & Hcontent & Hgone & Hother & Hrun).
  simpl in Hrt, Hcontent.
  assert (Hkw : kw = {[ "response_type" := VResponseType DEFERRED_MESSAGE_CREATE ]}).
  { apply map_eq. intros k.
    destruct (decide (k = "response_type")) as [->|Hkr];
      [by rewrite Hrt, lookup_singleton_eq|].
    rewrite lookup_singleton_ne by done.
    destruct (decide (k = "content")) as [->|Hkc]; [by rewrite Hcontent|].
    destruct (decide (k ∈ ["reply"; "mentions_reply"; "nonce"; "attachment"; "attachments"]))
      as [Hin|Hout]; [by apply Hgone|].
    rewrite Hother; [apply lookup_empty|].
    intros Hin. apply Hout.
    rewrite !elem_of_cons, elem_of_nil in Hin. rewrite !elem_of_cons, elem_of_nil. tauto. }
  rewrite <- Hkw. exact Hrun.
Qed.

(** ** The auto-defer task *)



(** X10.  Constructing a context for an auto-defer command and then letting
    the event loop run the scheduled task, before anything else responds,
    creates the initial response with [response_type] set to
    [DEFERRED_MESSAGE_CREATE] and nothing else, and puts the
    [fetch_initial_response] proxy in the history. *)
Theorem init_then_deferred_task (app : BotApp) (event : InteractionCreateEvent)
    (cmd : Command) (i : CommandInteraction) (w : World) (r : option Message) :
  interaction event = IsCommandInteraction i ->
  auto_defer cmd = true ->
  platform w (calls w)
    (create_initial_response i
       {[ "response_type" := VResponseType DEFERRED_MESSAGE_CREATE ]}) = Returns r ->
  exists self w1 coro,
    ApplicationContext.__init__ app event cmd w = (Ok self, w1)
    /\ scheduled w1 = scheduled w ++ [coro]
    /\ exists self2 w2,
        ApplicationContext.run_task coro (self, w1)
        = (Ok {| _message := None; _fetcher := Some (fetch_initial_response i) |},
           (self2, w2))
        /\ calls w2
           = calls w ++ [create_initial_response i
                           {[ "response_type" := VResponseType DEFERRED_MESSAGE_CREATE ]}]
        /\ _responses (super self2)
           = [{| _message := None; _fetcher := Some (fetch_initial_response i) |}].
Proof.
  intros Hev Hflag Hpf. unfold ApplicationContext.__init__.
  rewrite Hev, Hflag. eexists _, _, _. split; [reflexivity|].
  split; [reflexivity|].
  unfold ApplicationContext.run_task.
  rewrite respond_deferred_initial by reflexivity. simpl.
  rewrite Hpf. eexists _, _. split; [reflexivity|]. split; reflexivity.
Qed.

Lemma init_then_deferred_task_witness :
  exists self w1 coro,
    ApplicationContext.__init__ app0 event0 slow (fresh_world numbering_platform)
    = (Ok self, w1)
    /\ scheduled w1 = [] ++ [coro]
    /\ exists self2 w2,
        ApplicationContext.run_task coro (self, w1) = (Ok initial_proxy, (self2, w2))
        /\ calls w2
           = [] ++ [create_initial_response interaction0
                      {[ "response_type" := VResponseType DEFERRED_MESSAGE_CREATE ]}]
        /\ _responses (super self2) = [initial_proxy].
Proof.
  apply (init_then_deferred_task app0 event0 slow interaction0
           (fresh_world numbering_platform) None); reflexivity.
Defined.

(** ** Proxies that were constructed *)

(** X11.  On a proxy that [__init__] returned, the assertion in [message()]
    cannot fail: the call either returns the stored message and does nothing
    else, or invokes the stored fetcher once and ends as the fetcher ends.
    An [AssertionError] can only come from the fetcher itself. *)
Theorem message_of_constructed (message : option Message) (fetcher : option Fetcher)
    (p : ResponseProxy) (w : World) :
  ResponseProxy.__init__ message fetcher = Ok p ->
  ((exists m, message = Some m /\ ResponseProxy.message p w = (Ok (Some m), w))
   \/ (exists f,
         message = None /\ fetcher = Some f
         /\ ResponseProxy.message p w
            = (outcome_result (platform w (calls w) (call_fetcher f)),
               log_call (call_fetcher f) w)))
  /\ ((forall f, platform w (calls w) (call_fetcher f) ≠ Raises AssertionError) ->
      fst (ResponseProxy.message p w) ≠ Raise AssertionError).
Proof.
  intros Hinit.
  destruct message as [m|], fetcher as [f|]; simpl in Hinit; try discriminate;
    injection Hinit as <-.
  - split; [left; by exists m|]. intros _. discriminate.
  - split; [left; by exists m|]. intros _. discriminate.
  - split; [right; exists f; by rewrite message_fetch|].
    intros Hpf. rewrite message_fetch. simpl. specialize (Hpf f).
    destruct (platform w (calls w) (call_fetcher f)); simpl; congruence.
Qed.

Lemma message_of_constructed_witness :
  ResponseProxy.message {| _message := None; _fetcher := Some (other_fetcher 9) |}
    (fresh_world numbering_platform)
  = (Ok (Some (mkMessage 0)),
     log_call (call_fetcher (other_fetcher 9)) (fresh_world numbering_platform))
  /\ fst (ResponseProxy.message {| _message := None; _fetcher := Some (other_fetcher 9) |}
           (fresh_world numbering_platform))
     ≠ Raise AssertionError.
Proof.
  destruct (message_of_constructed None (Some (other_fetcher 9))
              {| _message := None; _fetcher := Some (other_fetcher 9) |}
              (fresh_world numbering_platform) eq_refl) as [Hrun Hnever].
  split.
  - destruct Hrun as [(m & Hm & _)|(f & _ & Hf & Hrun)]; [discriminate Hm|].
    injection Hf as <-. exact Hrun.
  - apply Hnever. intros f. discriminate.
Defined.

(** X12.  What [respond] returns can be awaited later.  The proxy of an
    initial response fetches through [fetch_initial_response] of the
    context's interaction, each time [message()] is called; the proxy of a
    follow-up gives back the very message [execute] returned, with no
    platform call. *)
Theorem respond_then_message (self self' : ApplicationContext) (w w' : World)
    (args : list Value) (kwargs : gmap string Value) (p : ResponseProxy) :
  ApplicationContext.respond args kwargs (self, w) = (Ok p, (self', w')) ->
  match _responses (super self) with
  | [] =>
      forall w2,
        ResponseProxy.message p w2
        = (outcome_result
             (platform w2 (calls w2)
                (call_fetcher (fetch_initial_response (_interaction self)))),
           log_call (call_fetcher (fetch_initial_response (_interaction self))) w2)
  | _ :: _ =>
      exists c m,
        calls w' = calls w ++ [c]
        /\ platform w (calls w) c = Returns (Some m)
        /\ forall w2, ResponseProxy.message p w2 = (Ok (Some m), w2)
  end.
Proof.
  intros Hrun.
  destruct (respond_step self w args kwargs) as (c & r & self1 & Hstep & _ & Hcases).
  rewrite Hrun in Hstep. injection Hstep as <- <- ->.
  destruct Hcases as [(e & He & _)|(p' & Hp & _ & Hkind)]; [discriminate He|].
  injection Hp as <-.
  destruct (_responses (super self)) as [|p0 ps].
  - subst p. intros w2. apply message_fetch.
  - destruct Hkind as (m & Hm & ->). exists c, m.
    split; [reflexivity|]. split; [exact Hm|]. reflexivity.
Qed.

Lemma respond_then_message_witness :
  ResponseProxy.message initial_proxy
    (log_call
       (create_initial_response interaction0
          {[ "content" := VStr "hello";
             "response_type" := VResponseType MESSAGE_CREATE ]})
       (fresh_world numbering_platform))
  = (Ok (Some (mkMessage 1)),
     log_call (call_fetcher (fetch_initial_response interaction0))
       (log_call
          (create_initial_response interaction0
             {[ "content" := VStr "hello";
                "response_type" := VResponseType MESSAGE_CREATE ]})
          (fresh_world numbering_platform))).
Proof.
  exact (respond_then_message context0 context1
           (fresh_world numbering_platform)
           (log_call
              (create_initial_response interaction0
                 {[ "content" := VStr "hello";
                    "response_type" := VResponseType MESSAGE_CREATE ]})
              (fresh_world numbering_platform))
           [VStr "hello"] ∅ initial_proxy eq_refl
           (log_call
              (create_initial_response interaction0
                 {[ "content" := VStr "hello";
                    "response_type" := VResponseType MESSAGE_CREATE ]})
              (fresh_world numbering_platform))).
Defined.
